(** * BLAKE2b and BLAKE2s (package blake2b, package blake2s): a shallow embedding

    The two Go packages are modelled side by side, one module per package,
    each definition following the source function of the same name.

    - [uint64] / [uint32] words are [Z] with the wrap-around written out
      ([wrap]); [int] values (lengths, offsets, [buflen]) are [Z] and stay
      far below the width of a Go [int].
    - bytes are [Init.Byte.byte]; byte slices are lists, a slice's capacity
      being taken equal to its length.
    - fixed-size arrays ([h], [t], [f], [buf], the work vector) are lists
      read with [!!!] and written with [<[i:=x]>] at indices that the
      source keeps in range.
    - a Go runtime panic (slice bounds or index out of range) is the
      outcome [Panic]; the [for] loop of [Write] runs on fuel computed from
      its input, [OutOfFuel] being a third outcome that is proved
      unreachable. *)

From Stdlib Require Import ZArith Lia String.
From Stdlib.Init Require Import Byte.
From stdpp Require Import base list.
From coqutil Require Import Byte Word.LittleEndianList.

Local Open Scope Z_scope.

(** ** Outcomes of Go code that may panic *)

Inductive result (A : Type) : Type :=
| Ok (a : A)
| Panic
| OutOfFuel.
Arguments Ok {A} a.
Arguments Panic {A}.
Arguments OutOfFuel {A}.

#[global] Instance result_ret : MRet result := fun A a => Ok a.
#[global] Instance result_bind : MBind result := fun A B k r =>
  match r with
  | Ok a => k a
  | Panic => Panic
  | OutOfFuel => OutOfFuel
  end.

(** Go's [error] interface: [None] is the nil error. *)
Definition error : Type := option string.
Definition nil : error := None.

(** ** Slices, [copy] and indexed stores *)

Definition len {A} (s : list A) : Z := Z.of_nat (length s).

(** [s[lo:hi]]: panics unless [0 <= lo <= hi <= cap(s)]. *)
Definition slice {A} (s : list A) (lo hi : Z) : result (list A) :=
  if (0 <=? lo) && (lo <=? hi) && (hi <=? len s)
  then Ok (take (Z.to_nat (hi - lo)) (drop (Z.to_nat lo) s))
  else Panic.

(** [copy(arr[lo:hi], src)]: the array after the copy, which moves
    [min(hi-lo, len(src))] elements. *)
Definition copy_into {A} (arr : list A) (lo hi : Z) (src : list A) : result (list A) :=
  dst ← slice arr lo hi;
  Ok (take (Z.to_nat lo) arr ++ take (length dst) src ++ drop (length src) dst
        ++ drop (Z.to_nat hi) arr).

(** [arr[i] = x]: panics unless [0 <= i < len(arr)]. *)
Definition store {A} (arr : list A) (i : Z) (x : A) : result (list A) :=
  if (0 <=? i) && (i <? len arr) then Ok (<[Z.to_nat i := x]> arr) else Panic.

(** ** encoding/binary, little endian *)

(** [binary.LittleEndian.Uint64(b)] and [Uint32(b)]: the first 8 (4) bytes
    of [b], least significant first. *)
Definition Uint64 (b : list byte) : Z := le_combine (take 8 b).
Definition Uint32 (b : list byte) : Z := le_combine (take 4 b).

(** [binary.LittleEndian.PutUint64(arr[off:], v)] and [PutUint32]. *)
Definition PutUint64 (arr : list byte) (off : nat) (v : Z) : list byte :=
  take off arr ++ le_split 8 v ++ drop (off + 8) arr.
Definition PutUint32 (arr : list byte) (off : nat) (v : Z) : list byte :=
  take off arr ++ le_split 4 v ++ drop (off + 4) arr.

(** ** package blake2b *)

Module Blake2b.

Definition BlockSize : Z := 128.
Definition KeySize : Z := 64.

Definition wrap (z : Z) : Z := z mod 2 ^ 64.

Definition iv : list Z :=
  [ 0x6a09e667f3bcc908; 0xbb67ae8584caa73b;
    0x3c6ef372fe94f82b; 0xa54ff53a5f1d36f1;
    0x510e527fade682d1; 0x9b05688c2b3e6c1f;
    0x1f83d9abfb41bd6b; 0x5be0cd19137e2179 ].

Definition sigma : list (list nat) :=
  [ [0; 1; 2; 3; 4; 5; 6; 7; 8; 9; 10; 11; 12; 13; 14; 15];
    [14; 10; 4; 8; 9; 15; 13; 6; 1; 12; 0; 2; 11; 7; 5; 3];
    [11; 8; 12; 0; 5; 2; 15; 13; 10; 14; 3; 6; 7; 1; 9; 4];
    [7; 9; 3; 1; 13; 12; 11; 14; 2; 6; 5; 10; 4; 0; 15; 8];
    [9; 0; 5; 7; 2; 4; 10; 15; 14; 1; 11; 12; 6; 8; 3; 13];
    [2; 12; 6; 10; 0; 11; 8; 3; 4; 13; 7; 5; 15; 14; 1; 9];
    [12; 5; 1; 15; 14; 13; 4; 10; 0; 7; 6; 3; 9; 2; 8; 11];
    [13; 11; 7; 14; 12; 1; 3; 9; 5; 0; 15; 4; 8; 6; 2; 10];
    [6; 15; 14; 9; 11; 3; 0; 8; 12; 2; 13; 7; 1; 4; 10; 5];
    [10; 2; 8; 4; 7; 6; 1; 5; 15; 11; 9; 14; 3; 12; 13; 0];
    [0; 1; 2; 3; 4; 5; 6; 7; 8; 9; 10; 11; 12; 13; 14; 15];
    [14; 10; 4; 8; 9; 15; 13; 6; 1; 12; 0; 2; 11; 7; 5; 3] ]%nat.

Record digest : Type := mkDigest {
  h : list Z;        (* [8]uint64 *)
  t : list Z;        (* [2]uint64 *)
  f : list Z;        (* [2]uint64 *)
  buf : list byte;   (* [2*BlockSize]byte *)
  buflen : Z;        (* int *)
  key : list byte    (* []byte *)
}.

Definition set_h (d : digest) (x : list Z) : digest :=
  mkDigest x (t d) (f d) (buf d) (buflen d) (key d).
Definition set_t (d : digest) (x : list Z) : digest :=
  mkDigest (h d) x (f d) (buf d) (buflen d) (key d).
Definition set_f (d : digest) (x : list Z) : digest :=
  mkDigest (h d) (t d) x (buf d) (buflen d) (key d).
Definition set_buf (d : digest) (x : list byte) : digest :=
  mkDigest (h d) (t d) (f d) x (buflen d) (key d).
Definition set_buflen (d : digest) (x : Z) : digest :=
  mkDigest (h d) (t d) (f d) (buf d) x (key d).
Definition set_key (d : digest) (x : list byte) : digest :=
  mkDigest (h d) (t d) (f d) (buf d) (buflen d) x.

(** [new(digest)]: the zero value. *)
Definition zero_digest : digest :=
  mkDigest (replicate 8 0) (replicate 2 0) (replicate 2 0)
           (replicate (Z.to_nat (2 * BlockSize)) x00) 0 [].

Definition rotr64 (w : Z) (c : Z) : Z :=
  Z.lor (Z.shiftr w c) (wrap (Z.shiftl w (64 - c))).

(** The closure [G] of [compress]: it reads [m] and updates [v] in place. *)
Definition G (m : list Z) (r i a b c d : nat) (v : list Z) : list Z :=
  let v := <[a := wrap (wrap ((v !!! a) + (v !!! b)) + (m !!! ((sigma !!! r) !!! (2 * i + 0)%nat)))]> v in
  let v := <[d := rotr64 (Z.lxor (v !!! d) (v !!! a)) 32]> v in
  let v := <[c := wrap ((v !!! c) + (v !!! d))]> v in
  let v := <[b := rotr64 (Z.lxor (v !!! b) (v !!! c)) 24]> v in
  let v := <[a := wrap (wrap ((v !!! a) + (v !!! b)) + (m !!! ((sigma !!! r) !!! (2 * i + 1)%nat)))]> v in
  let v := <[d := rotr64 (Z.lxor (v !!! d) (v !!! a)) 16]> v in
  let v := <[c := wrap ((v !!! c) + (v !!! d))]> v in
  let v := <[b := rotr64 (Z.lxor (v !!! b) (v !!! c)) 63]> v in
  v.

(** The body of the round loop of [compress]. *)
Definition round (m : list Z) (v : list Z) (i : nat) : list Z :=
  let v := G m i 0 0 4 8 12 v in
  let v := G m i 1 1 5 9 13 v in
  let v := G m i 2 2 6 10 14 v in
  let v := G m i 3 3 7 11 15 v in
  let v := G m i 4 0 5 10 15 v in
  let v := G m i 5 1 6 11 12 v in
  let v := G m i 6 2 7 8 13 v in
  let v := G m i 7 3 4 9 14 v in
  v.

Definition compress (d : digest) : digest :=
  let m := foldl (fun m i => <[i := Uint64 (drop (i * 8) (buf d))]> m)
                 (replicate 16 0) (seq 0 16) in
  let v := replicate 16 0 in
  let v := foldl (fun v i => <[i := h d !!! i]> v) v (seq 0 8) in
  let v := <[8%nat := iv !!! 0%nat]> v in
  let v := <[9%nat := iv !!! 1%nat]> v in
  let v := <[10%nat := iv !!! 2%nat]> v in
  let v := <[11%nat := iv !!! 3%nat]> v in
  let v := <[12%nat := Z.lxor (t d !!! 0%nat) (iv !!! 4%nat)]> v in
  let v := <[13%nat := Z.lxor (t d !!! 1%nat) (iv !!! 5%nat)]> v in
  let v := <[14%nat := Z.lxor (f d !!! 0%nat) (iv !!! 6%nat)]> v in
  let v := <[15%nat := Z.lxor (f d !!! 1%nat) (iv !!! 7%nat)]> v in
  let v := foldl (round m) v (seq 0 12) in
  set_h d (foldl (fun hh i =>
                    <[i := Z.lxor (Z.lxor (hh !!! i) (v !!! i)) (v !!! (i + 8)%nat)]> hh)
                 (h d) (seq 0 8)).

Definition incrementCounter (d : digest) (inc : Z) : digest :=
  let d := set_t d (<[0%nat := wrap ((t d !!! 0%nat) + inc)]> (t d)) in
  if (t d !!! 0%nat) <? inc
  then set_t d (<[1%nat := wrap ((t d !!! 1%nat) - 1)]> (t d))
  else d.

(** The loop of [Write]; the second component counts the calls of
    [compress] (instrumentation only, no effect on the state). *)
Fixpoint Write_loop (fuel : nat) (d : digest) (n : nat) (b : list byte)
    (inlen offset : Z) : result (digest * nat) :=
  if inlen >? 0 then
    match fuel with
    | O => OutOfFuel
    | S fuel =>
        let left := buflen d in
        let fill := 2 * BlockSize - left in
        if inlen >? fill then
          src ← slice b 0 fill;
          a ← copy_into (buf d) left (len (buf d)) src;
          let d := set_buf d a in
          let d := set_buflen d (buflen d + fill) in
          let d := incrementCounter d BlockSize in
          let d := compress d in
          src ← slice (buf d) BlockSize (len (buf d));
          a ← copy_into (buf d) 0 BlockSize src;
          let d := set_buf d a in
          let d := set_buflen d (buflen d - BlockSize) in
          Write_loop fuel d (S n) b (inlen - fill) (offset + fill)
        else
          src ← slice b offset (len b);
          a ← copy_into (buf d) left (len (buf d)) src;
          let d := set_buf d a in
          let d := set_buflen d (buflen d + inlen) in
          Write_loop fuel d n b (inlen - inlen) (offset + inlen)
    end
  else Ok (d, n).

Definition Write_count (d : digest) (b : list byte) : result (digest * nat) :=
  Write_loop (length b + 2) d 0 b (len b) 0.

Definition Write (d : digest) (b : list byte) : result (digest * (Z * error)) :=
  '(d, _) ← Write_count d b;
  Ok (d, (0, nil)).

(** The zeroing loop of [Sum]: [buf[i+buflen] = 0] for [i < j]. *)
Definition zero_tail (a : list byte) (buflen j : Z) : result (list byte) :=
  foldl (fun r i => a ← r; store a (Z.of_nat i + buflen) x00)
        (Ok a) (seq 0 (Z.to_nat j)).

(** [Sum], with the number of [compress] calls as a third component. *)
Definition Sum_count (d : digest) (b : list byte) : result (digest * list byte * nat) :=
  '(d, n) ← (if buflen d >? BlockSize then
               let d := incrementCounter d BlockSize in
               let d := compress d in
               let d := set_buflen d (buflen d - BlockSize) in
               src ← slice (buf d) BlockSize (len (buf d));
               a ← copy_into (buf d) 0 (buflen d) src;
               Ok (set_buf d a, 1%nat)
             else Ok (d, 0%nat));
  let d := incrementCounter d (wrap (buflen d)) in
  let d := set_f d (<[0%nat := 0xffffffffffffffff]> (f d)) in
  let j := 2 * BlockSize - buflen d in
  a ← zero_tail (buf d) (buflen d) j;
  let d := set_buf d a in
  let d := compress d in
  let buffer := foldl (fun buffer i => PutUint64 buffer (i * 8) (h d !!! i))
                      (replicate 64 x00) (seq 0 8) in
  Ok (d, b ++ buffer, S n).

Definition Sum (d : digest) (b : list byte) : result (digest * list byte) :=
  '(d, out, _) ← Sum_count d b;
  Ok (d, out).

Definition Reset (d : digest) : result digest :=
  let keylen := len (key d) in
  let keylen := if keylen >? KeySize then KeySize else keylen in
  let p := replicate (Z.to_nat BlockSize) x00 in
  let p := <[0%nat := byte.of_Z 64]> p in
  let p := <[1%nat := byte.of_Z keylen]> p in
  let p := <[2%nat := byte.of_Z 1]> p in
  let p := <[3%nat := byte.of_Z 1]> p in
  let d := set_f d (<[0%nat := 0]> (f d)) in
  let d := set_f d (<[1%nat := 0]> (f d)) in
  let d := set_t d (<[0%nat := 0]> (t d)) in
  let d := set_t d (<[1%nat := 0]> (t d)) in
  let d := set_buflen d 0 in
  let d := set_h d (foldl (fun hh i =>
                             <[i := Z.lxor (iv !!! i) (Uint64 (drop (i * 8) p))]> hh)
                          (h d) (seq 0 8)) in
  if keylen >? 0 then
    let block := replicate (Z.to_nat BlockSize) x00 in
    src ← slice (key d) 0 keylen;
    block ← copy_into block 0 (len block) src;
    '(d, _) ← Write d block;
    Ok d
  else Ok d.

Definition New : result digest := Reset zero_digest.

Definition NewKeyed (key : list byte) : result digest :=
  Reset (set_key zero_digest key).

(** Client code: an engine fed a sequence of [Write] calls, then [Sum(nil)].
    [absorb_count] also adds up the [compress] calls of the writes. *)
Definition absorb_count (d : digest) (chunks : list (list byte)) : result (digest * nat) :=
  foldl (fun r b => '(d, n) ← r; '(d, k) ← Write_count d b; Ok (d, (n + k)%nat))
        (Ok (d, 0%nat)) chunks.

Definition absorb (d : digest) (chunks : list (list byte)) : result digest :=
  '(d, _) ← absorb_count d chunks;
  Ok d.

Definition hash (init : result digest) (chunks : list (list byte)) : result (list byte) :=
  d ← init;
  d ← absorb d chunks;
  '(_, out) ← Sum d [];
  Ok out.

(** Invariants of the Go types: the array [buf] has [2*BlockSize] bytes
    and [buflen] indexes into it; the words of [h], [t], [f] are 64-bit. *)
Definition buf_ok (d : digest) : Prop :=
  len (buf d) = 2 * BlockSize /\ 0 <= buflen d <= 2 * BlockSize.

Definition word_ok (x : Z) : Prop := 0 <= x < 2 ^ 64.

Definition words_ok (d : digest) : Prop :=
  (length (h d) = 8%nat /\ Forall word_ok (h d)) /\
  (length (t d) = 2%nat /\ Forall word_ok (t d)) /\
  (length (f d) = 2%nat /\ Forall word_ok (f d)).

(** Bytes held in the buffer, and [compress] calls made, once [n] more
    bytes have been written into a buffer holding [l] bytes. *)
Definition pending (l n : Z) : Z :=
  if l + n <=? 2 * BlockSize then l + n
  else BlockSize + (l + n - 1) mod BlockSize + 1.

Definition compressions (l n : Z) : Z :=
  if l + n <=? 2 * BlockSize then 0 else (l + n - BlockSize - 1) / BlockSize.

(** The methods [BlockSize()] and [Size()] of [*digest]. *)
Definition digest_BlockSize (d : digest) : Z := 128.
Definition digest_Size (d : digest) : Z := 64.

End Blake2b.

(** ** package blake2s *)

Module Blake2s.

Definition BlockSize : Z := 64.
Definition KeySize : Z := 32.

Definition wrap (z : Z) : Z := z mod 2 ^ 32.

Definition iv : list Z :=
  [ 0x6A09E667; 0xBB67AE85; 0x3C6EF372; 0xA54FF53A;
    0x510E527F; 0x9B05688C; 0x1F83D9AB; 0x5BE0CD19 ].

Definition sigma : list (list nat) :=
  [ [0; 1; 2; 3; 4; 5; 6; 7; 8; 9; 10; 11; 12; 13; 14; 15];
    [14; 10; 4; 8; 9; 15; 13; 6; 1; 12; 0; 2; 11; 7; 5; 3];
    [11; 8; 12; 0; 5; 2; 15; 13; 10; 14; 3; 6; 7; 1; 9; 4];
    [7; 9; 3; 1; 13; 12; 11; 14; 2; 6; 5; 10; 4; 0; 15; 8];
    [9; 0; 5; 7; 2; 4; 10; 15; 14; 1; 11; 12; 6; 8; 3; 13];
    [2; 12; 6; 10; 0; 11; 8; 3; 4; 13; 7; 5; 15; 14; 1; 9];
    [12; 5; 1; 15; 14; 13; 4; 10; 0; 7; 6; 3; 9; 2; 8; 11];
    [13; 11; 7; 14; 12; 1; 3; 9; 5; 0; 15; 4; 8; 6; 2; 10];
    [6; 15; 14; 9; 11; 3; 0; 8; 12; 2; 13; 7; 1; 4; 10; 5];
    [10; 2; 8; 4; 7; 6; 1; 5; 15; 11; 9; 14; 3; 12; 13; 0] ]%nat.

Record digest : Type := mkDigest {
  h : list Z;        (* [8]uint32 *)
  t : list Z;        (* [2]uint32 *)
  f : list Z;        (* [2]uint32 *)
  buf : list byte;   (* [2*BlockSize]byte *)
  buflen : Z;        (* int *)
  key : list byte    (* []byte *)
}.

Definition set_h (d : digest) (x : list Z) : digest :=
  mkDigest x (t d) (f d) (buf d) (buflen d) (key d).
Definition set_t (d : digest) (x : list Z) : digest :=
  mkDigest (h d) x (f d) (buf d) (buflen d) (key d).
Definition set_f (d : digest) (x : list Z) : digest :=
  mkDigest (h d) (t d) x (buf d) (buflen d) (key d).
Definition set_buf (d : digest) (x : list byte) : digest :=
  mkDigest (h d) (t d) (f d) x (buflen d) (key d).
Definition set_buflen (d : digest) (x : Z) : digest :=
  mkDigest (h d) (t d) (f d) (buf d) x (key d).
Definition set_key (d : digest) (x : list byte) : digest :=
  mkDigest (h d) (t d) (f d) (buf d) (buflen d) x.

(** [new(digest)]: the zero value. *)
Definition zero_digest : digest :=
  mkDigest (replicate 8 0) (replicate 2 0) (replicate 2 0)
           (replicate (Z.to_nat (2 * BlockSize)) x00) 0 [].

Definition rotr32 (w : Z) (c : Z) : Z :=
  Z.lor (Z.shiftr w c) (wrap (Z.shiftl w (32 - c))).

(** The closure [G] of [compress]: it reads [m] and updates [v] in place. *)
Definition G (m : list Z) (r i a b c d : nat) (v : list Z) : list Z :=
  let v := <[a := wrap (wrap ((v !!! a) + (v !!! b)) + (m !!! ((sigma !!! r) !!! (2 * i + 0)%nat)))]> v in
  let v := <[d := rotr32 (Z.lxor (v !!! d) (v !!! a)) 16]> v in
  let v := <[c := wrap ((v !!! c) + (v !!! d))]> v in
  let v := <[b := rotr32 (Z.lxor (v !!! b) (v !!! c)) 12]> v in
  let v := <[a := wrap (wrap ((v !!! a) + (v !!! b)) + (m !!! ((sigma !!! r) !!! (2 * i + 1)%nat)))]> v in
  let v := <[d := rotr32 (Z.lxor (v !!! d) (v !!! a)) 8]> v in
  let v := <[c := wrap ((v !!! c) + (v !!! d))]> v in
  let v := <[b := rotr32 (Z.lxor (v !!! b) (v !!! c)) 7]> v in
  v.

(** The body of the round loop of [compress]. *)
Definition round (m : list Z) (v : list Z) (i : nat) : list Z :=
  let v := G m i 0 0 4 8 12 v in
  let v := G m i 1 1 5 9 13 v in
  let v := G m i 2 2 6 10 14 v in
  let v := G m i 3 3 7 11 15 v in
  let v := G m i 4 0 5 10 15 v in
  let v := G m i 5 1 6 11 12 v in
  let v := G m i 6 2 7 8 13 v in
  let v := G m i 7 3 4 9 14 v in
  v.

Definition compress (d : digest) : digest :=
  let m := foldl (fun m i => <[i := Uint32 (drop (i * 4) (buf d))]> m)
                 (replicate 16 0) (seq 0 16) in
  let v := replicate 16 0 in
  let v := foldl (fun v i => <[i := h d !!! i]> v) v (seq 0 8) in
  let v := <[8%nat := iv !!! 0%nat]> v in
  let v := <[9%nat := iv !!! 1%nat]> v in
  let v := <[10%nat := iv !!! 2%nat]> v in
  let v := <[11%nat := iv !!! 3%nat]> v in
  let v := <[12%nat := Z.lxor (t d !!! 0%nat) (iv !!! 4%nat)]> v in
  let v := <[13%nat := Z.lxor (t d !!! 1%nat) (iv !!! 5%nat)]> v in
  let v := <[14%nat := Z.lxor (f d !!! 0%nat) (iv !!! 6%nat)]> v in
  let v := <[15%nat := Z.lxor (f d !!! 1%nat) (iv !!! 7%nat)]> v in
  let v := foldl (round m) v (seq 0 10) in
  set_h d (foldl (fun hh i =>
                    <[i := Z.lxor (Z.lxor (hh !!! i) (v !!! i)) (v !!! (i + 8)%nat)]> hh)
                 (h d) (seq 0 8)).

Definition incrementCounter (d : digest) (inc : Z) : digest :=
  let d := set_t d (<[0%nat := wrap ((t d !!! 0%nat) + inc)]> (t d)) in
  if (t d !!! 0%nat) <? inc
  then set_t d (<[1%nat := wrap ((t d !!! 1%nat) - 1)]> (t d))
  else d.

(** The loop of [Write]; the second component counts the calls of
    [compress] (instrumentation only, no effect on the state). *)
Fixpoint Write_loop (fuel : nat) (d : digest) (n : nat) (b : list byte)
    (inlen offset : Z) : result (digest * nat) :=
  if inlen >? 0 then
    match fuel with
    | O => OutOfFuel
    | S fuel =>
        let left := buflen d in
        let fill := 2 * BlockSize - left in
        if inlen >? fill then
          src ← slice b offset fill;
          a ← copy_into (buf d) left (len (buf d)) src;
          let d := set_buf d a in
          let d := set_buflen d (buflen d + fill) in
          let d := incrementCounter d BlockSize in
          let d := compress d in
          src ← slice (buf d) BlockSize (len (buf d));
          a ← copy_into (buf d) 0 BlockSize src;
          let d := set_buf d a in
          let d := set_buflen d (buflen d - BlockSize) in
          Write_loop fuel d (S n) b (inlen - fill) (offset + fill)
        else
          src ← slice b offset (len b);
          a ← copy_into (buf d) left (len (buf d)) src;
          let d := set_buf d a in
          let d := set_buflen d (buflen d + inlen) in
          Write_loop fuel d n b (inlen - inlen) (offset + inlen)
    end
  else Ok (d, n).

Definition Write_count (d : digest) (b : list byte) : result (digest * nat) :=
  Write_loop (length b + 2) d 0 b (len b) 0.

Definition Write (d : digest) (b : list byte) : result (digest * (Z * error)) :=
  '(d, _) ← Write_count d b;
  Ok (d, (0, nil)).

(** The zeroing loop of [Sum]: [buf[i+buflen] = 0] for [i < j]. *)
Definition zero_tail (a : list byte) (buflen j : Z) : result (list byte) :=
  foldl (fun r i => a ← r; store a (Z.of_nat i + buflen) x00)
        (Ok a) (seq 0 (Z.to_nat j)).

(** [Sum], with the number of [compress] calls as a third component. *)
Definition Sum_count (d : digest) (b : list byte) : result (digest * list byte * nat) :=
  '(d, n) ← (if buflen d >? BlockSize then
               let d := incrementCounter d BlockSize in
               let d := compress d in
               let d := set_buflen d (buflen d - BlockSize) in
               src ← slice (buf d) BlockSize (len (buf d));
               a ← copy_into (buf d) 0 (buflen d) src;
               Ok (set_buf d a, 1%nat)
             else Ok (d, 0%nat));
  let d := incrementCounter d (wrap (buflen d)) in
  let d := set_f d (<[0%nat := 0xffffffff]> (f d)) in
  let j := 2 * BlockSize - buflen d in
  a ← zero_tail (buf d) (buflen d) j;
  let d := set_buf d a in
  let d := compress d in
  let buffer := foldl (fun buffer i => PutUint32 buffer (i * 4) (h d !!! i))
                      (replicate 32 x00) (seq 0 8) in
  Ok (d, b ++ buffer, S n).

Definition Sum (d : digest) (b : list byte) : result (digest * list byte) :=
  '(d, out, _) ← Sum_count d b;
  Ok (d, out).

Definition Reset (d : digest) : result digest :=
  let keylen := len (key d) in
  let keylen := if keylen >? KeySize then KeySize else keylen in
  let p := replicate (Z.to_nat BlockSize) x00 in
  let p := <[0%nat := byte.of_Z 32]> p in
  let p := <[1%nat := byte.of_Z keylen]> p in
  let p := <[2%nat := byte.of_Z 1]> p in
  let p := <[3%nat := byte.of_Z 1]> p in
  let d := set_f d (<[0%nat := 0]> (f d)) in
  let d := set_f d (<[1%nat := 0]> (f d)) in
  let d := set_t d (<[0%nat := 0]> (t d)) in
  let d := set_t d (<[1%nat := 0]> (t d)) in
  let d := set_buflen d 0 in
  let d := set_h d (foldl (fun hh i =>
                             <[i := Z.lxor (iv !!! i) (Uint32 (drop (i * 4) p))]> hh)
                          (h d) (seq 0 8)) in
  if keylen >? 0 then
    let block := replicate (Z.to_nat BlockSize) x00 in
    src ← slice (key d) 0 keylen;
    block ← copy_into block 0 (len block) src;
    '(d, _) ← Write d block;
    Ok d
  else Ok d.

Definition New : result digest := Reset zero_digest.

Definition NewKeyed (key : list byte) : result digest :=
  Reset (set_key zero_digest key).

(** Client code: an engine fed a sequence of [Write] calls, then [Sum(nil)].
    [absorb_count] also adds up the [compress] calls of the writes. *)
Definition absorb_count (d : digest) (chunks : list (list byte)) : result (digest * nat) :=
  foldl (fun r b => '(d, n) ← r; '(d, k) ← Write_count d b; Ok (d, (n + k)%nat))
        (Ok (d, 0%nat)) chunks.

Definition absorb (d : digest) (chunks : list (list byte)) : result digest :=
  '(d, _) ← absorb_count d chunks;
  Ok d.

Definition hash (init : result digest) (chunks : list (list byte)) : result (list byte) :=
  d ← init;
  d ← absorb d chunks;
  '(_, out) ← Sum d [];
  Ok out.

(** Invariants of the Go types: the array [buf] has [2*BlockSize] bytes
    and [buflen] indexes into it; the words of [h], [t], [f] are 32-bit. *)
Definition buf_ok (d : digest) : Prop :=
  len (buf d) = 2 * BlockSize /\ 0 <= buflen d <= 2 * BlockSize.

Definition word_ok (x : Z) : Prop := 0 <= x < 2 ^ 32.

Definition words_ok (d : digest) : Prop :=
  (length (h d) = 8%nat /\ Forall word_ok (h d)) /\
  (length (t d) = 2%nat /\ Forall word_ok (t d)) /\
  (length (f d) = 2%nat /\ Forall word_ok (f d)).

(** The methods [BlockSize()] and [Size()] of [*digest]. *)
Definition digest_BlockSize (d : digest) : Z := 64.
Definition digest_Size (d : digest) : Z := 32.

(** The longest input that one [Write] accepts when the buffer holds [l]
    bytes (see [Write_panics] and [Write_within_limit]). *)
Definition write_limit (l : Z) : Z :=
  if l <? BlockSize then 3 * BlockSize - l
  else if l <? 2 * BlockSize then 4 * BlockSize - l
  else 3 * BlockSize.

End Blake2s.

(** ** Reference digests (RFC 7693, appendices A and B, and the digests of
    the empty message published with the reference implementation) *)

Definition hex_value (c : Ascii.ascii) : Z :=
  let n := Z.of_nat (Ascii.nat_of_ascii c) in
  if n <? 58 then n - 48 else n - 87.

Fixpoint unhex (s : string) : list byte :=
  match s with
  | String hi (String lo rest) =>
      byte.of_Z (16 * hex_value hi + hex_value lo) :: unhex rest
  | _ => []
  end.

Definition blake2b_empty : list byte := unhex
  "786a02f742015903c6c6fd852552d272912f4740e15847618a86e217f71f5419d25e1031afee585313896444934eb04b903a685b1448b755d56f701afe9be2ce".
Definition blake2b_abc : list byte := unhex
  "ba80a53f981c4d0d6a2797b69f12f6e94c212f14685ac4b74b12bb6fdbffa2d17d87c5392aab792dc252d5de4533cc9518d38aa8dbf1925ab92386edd4009923".
Definition blake2s_empty : list byte := unhex
  "69217a3079908094e11121d042354a7c1f55b6482ca1a51e1b250dfd1ed0eef9".
Definition blake2s_abc : list byte := unhex
  "508c5e8c327c14e2e1a72ba34eeb452f37458b209ed63a294d999b4c86675982".

Definition abc : list byte := [x61; x62; x63].

(** ** Proof devices *)

Definition in_range (W x : Z) : Prop := 0 <= x < 2 ^ W.

Definition vec_ok (W : Z) (n : nat) (v : list Z) : Prop :=
  length v = n /\ Forall (in_range W) v.

(** Rotation of a [W]-bit word to the right, arithmetically. *)
Definition rotate_right (W x c : Z) : Z :=
  x / 2 ^ c + (x mod 2 ^ c) * 2 ^ (W - c).

(** One assignment [v[i] = op(v[i], v[j])], and the four entries of the
    work vector that a call of [G] touches. *)
Definition assign (i j : nat) (op : Z -> Z -> Z) (v : list Z) : list Z :=
  <[i := op (v !!! i) (v !!! j)]> v.

Definition put4 (a b c d : nat) (A B C D : Z) (v : list Z) : list Z :=
  <[a := A]> (<[b := B]> (<[c := C]> (<[d := D]> v))).

(** Inputs used in the examples. *)
Definition zeros (n : nat) : list byte := replicate n x00.
Definition ones (n : nat) : list byte := replicate n x01.

(** The total number of bytes of a sequence of writes. *)
Definition total (chunks : list (list byte)) : Z :=
  foldr (fun b n => len b + n) 0 chunks.

(** * Theorems *)

(** ** Known vectors *)

(** C8: the unkeyed digests of the empty message and of "abc" are the
    reference digests, for BLAKE2b (64 bytes) and BLAKE2s (32 bytes). *)
Theorem known_vectors :
  Blake2b.hash Blake2b.New [] = Ok blake2b_empty /\
  Blake2b.hash Blake2b.New [abc] = Ok blake2b_abc /\
  Blake2s.hash Blake2s.New [] = Ok blake2s_empty /\
  Blake2s.hash Blake2s.New [abc] = Ok blake2s_abc /\
  length blake2b_abc = 64%nat /\ length blake2s_abc = 32%nat.
Proof. repeat apply conj; vm_compute; reflexivity. Qed.
